(** * whitelist-api: the validator, the two handlers and their collaborators

    A shallow embedding of [whitelist-api.py].  Python [str] values are
    sequences of Unicode code points; the handlers run in a small
    state-and-exception monad over a world holding the remote repository,
    the scratch workspace and the trace of external calls. *)

From Stdlib Require Import String Ascii.
From stdpp Require Import base list gmap.

Local Open Scope N_scope.

(** ** Python strings *)

(** A [str] is a list of code points. *)
Abbreviation pystr := (list N).

(** An ASCII literal of the source as a [str]. *)
Fixpoint py (s : string) : pystr :=
  match s with
  | EmptyString => []
  | String a s' => N_of_ascii a :: py s'
  end.

#[local] Set Warnings "-register-all".

(** JSON values as [json.loads] returns them: [JNull] is [None]; of a float
    only whether it is non-zero is kept, which is all the handlers look at;
    an object is the parsed [dict], looked up by first match. *)
Inductive json :=
| JNull
| JBool (b : bool)
| JInt (n : Z)
| JFloat (nonzero : bool)
| JStr (s : pystr)
| JArr (l : list json)
| JObj (d : list (pystr * json)).

(** What the Python standard library decides and the source does not: the
    Unicode database outside ASCII, the codecs, and [str()] of a value that
    is not a [str].  The ASCII part of the character tables is written out
    below; the rest is left abstract, and every theorem holds for all of
    it. *)
Class StdLib := {
  uc_isalnum : N → bool;
  uc_isspace : N → bool;
  uc_lower : pystr → pystr;
  b64decode : pystr → option (list N);
  uc_utf8_decode : list N → option pystr;
  uc_utf8_encode : N → list N;
  repr_value : json → pystr
}.

Definition is_ascii (c : N) : bool := c <? 128.

Definition between (lo hi c : N) : bool := (lo <=? c) && (c <=? hi).

Definition ascii_isalnum (c : N) : bool :=
  between 48 57 c || between 65 90 c || between 97 122 c.

(** [str.isspace] on ASCII: TAB, LF, VT, FF, CR, FS, GS, RS, US and SPACE. *)
Definition ascii_isspace (c : N) : bool :=
  between 9 13 c || between 28 32 c.

Definition ascii_lower (c : N) : N :=
  if between 65 90 c then c + 32 else c.

(** *** base64 and an ASCII-only library

    [binascii.a2b_base64] in its default, lenient mode: characters outside
    the alphabet are skipped, a pad that completes a quad ends the input,
    and leftover sextets are an error. *)
Definition b64_value (c : N) : option N :=
  if between 65 90 c then Some (c - 65)
  else if between 97 122 c then Some (c - 71)
  else if between 48 57 c then Some (c + 4)
  else if c =? 43 then Some 62
  else if c =? 47 then Some 63
  else None.

Record b64_state := {
  quad_pos : N;
  leftchar : N;
  pads : N;
  bin_data : list N
}.

Definition b64_push (v : N) (st : b64_state) : b64_state :=
  match quad_pos st with
  | 0 => {| quad_pos := 1; leftchar := v; pads := 0; bin_data := bin_data st |}
  | 1 => {| quad_pos := 2; leftchar := N.land v 15; pads := 0;
            bin_data := bin_data st ++ [N.lor (N.shiftl (leftchar st) 2) (N.shiftr v 4)] |}
  | 2 => {| quad_pos := 3; leftchar := N.land v 3; pads := 0;
            bin_data := bin_data st ++ [N.lor (N.shiftl (leftchar st) 4) (N.shiftr v 2)] |}
  | _ => {| quad_pos := 0; leftchar := 0; pads := 0;
            bin_data := bin_data st ++ [N.lor (N.shiftl (leftchar st) 6) v] |}
  end.

Fixpoint a2b_loop (s : pystr) (st : b64_state) : option (list N) :=
  match s with
  | [] => if quad_pos st =? 0 then Some (bin_data st) else None
  | c :: s' =>
      if c =? 61 then
        if (2 <=? quad_pos st) && (4 <=? quad_pos st + (pads st + 1))
        then Some (bin_data st)
        else a2b_loop s'
               (if 2 <=? quad_pos st
                then {| quad_pos := quad_pos st; leftchar := leftchar st;
                        pads := pads st + 1; bin_data := bin_data st |}
                else st)
      else match b64_value c with
           | None => a2b_loop s' st
           | Some v => a2b_loop s' (b64_push v st)
           end
  end.

Definition a2b_base64 (s : pystr) : option (list N) :=
  a2b_loop s {| quad_pos := 0; leftchar := 0; pads := 0; bin_data := [] |}.

(** The library cut down to ASCII, to run the model on ASCII requests: no
    code point from 128 on is a letter, a digit or white space, none is
    changed by [lower], and bytes from 128 on do not decode.  [b64decode]
    refuses a [str] that is not ASCII, as [base64.b64decode] does. *)
Definition ascii_lib : StdLib :=
  {| uc_isalnum := λ _, false;
     uc_isspace := λ _, false;
     uc_lower := λ s, s;
     b64decode := λ s, if forallb is_ascii s then a2b_base64 s else None;
     uc_utf8_decode := λ _, None;
     uc_utf8_encode := λ _, [];
     repr_value := λ _, [] |}.

Section Strings.
Context {L : StdLib}.

Definition char_isalnum (c : N) : bool :=
  if is_ascii c then ascii_isalnum c else uc_isalnum c.

Definition char_isspace (c : N) : bool :=
  if is_ascii c then ascii_isspace c else uc_isspace c.

(** [s.isalnum()]: every character is alphanumeric and there is at least
    one character. *)
Definition isalnum (s : pystr) : bool :=
  match s with
  | [] => false
  | _ => forallb char_isalnum s
  end.

(** [s.lower()] *)
Definition lower (s : pystr) : pystr :=
  if forallb is_ascii s then map ascii_lower s else uc_lower s.

Fixpoint lstrip (s : pystr) : pystr :=
  match s with
  | [] => []
  | c :: s' => if char_isspace c then lstrip s' else s
  end.

Definition rstrip (s : pystr) : pystr := rev (lstrip (rev s)).

(** [s.strip()] *)
Definition strip (s : pystr) : pystr := rstrip (lstrip s).
End Strings.

(** [s.replace(c, '')] for a one-character [c]. *)
Definition remove_char (c : N) (s : pystr) : pystr :=
  filter (λ x, x ≠ c) s.

(** [s.startswith(p)] *)
Fixpoint startswith (p s : pystr) : bool :=
  match p, s with
  | [], _ => true
  | _ :: _, [] => false
  | a :: p', b :: s' => (a =? b) && startswith p' s'
  end.

(** [s.split(sep)] for a one-character [sep]: never empty. *)
Fixpoint split (sep : N) (s : pystr) : list pystr :=
  match s with
  | [] => [[]]
  | c :: s' =>
      if c =? sep then [] :: split sep s'
      else match split sep s' with
           | [] => [[c]]
           | l :: ls => (c :: l) :: ls
           end
  end.

(** [s.split(sep, 1)]: cut at the first [sep], if there is one. *)
Fixpoint split1 (sep : N) (s : pystr) : list pystr :=
  match s with
  | [] => [[]]
  | c :: s' =>
      if c =? sep then [[]; s']
      else match split1 sep s' with
           | l :: ls => (c :: l) :: ls
           | [] => [[c]]
           end
  end.

(** [sep.join(l)] *)
Fixpoint join (sep : pystr) (l : list pystr) : pystr :=
  match l with
  | [] => []
  | [x] => x
  | x :: l' => x ++ sep ++ join sep l'
  end.

(** Truth value of a [str]: the empty string is false. *)
Definition str_truthy (s : pystr) : bool :=
  match s with [] => false | _ => true end.

Definition HYPHEN : N := 45.
Definition UNDERSCORE : N := 95.
Definition SPACE : N := 32.
Definition COLON : N := 58.
Definition NEWLINE : N := 10.
Definition SLASH : N := 47.

(** ** validate_input *)

Definition allowed_envs : list pystr :=
  [py "ort"; py "int"; py "prod"; py "dev"; py "staging"; py "test"].

Definition err_entry_empty : pystr := py "Entry cannot be empty".
Definition err_entry_long : pystr := py "Entry too long (max 500 characters)".
Definition err_environment : pystr :=
  py "Environment must be one of: " ++ join (py ", ") allowed_envs.
Definition err_tenant : pystr :=
  py "Tenant name can only contain letters, numbers, hyphens, and underscores".

Section Validate.
Context {L : StdLib}.

Definition validate_input (entry environment tenant_name : pystr)
  : list pystr :=
  let errors := [] in
  let errors :=
    if negb (str_truthy entry) || (length (strip entry) =? 0)%nat
    then errors ++ [err_entry_empty]
    else if (500 <? length entry)%nat
    then errors ++ [err_entry_long]
    else errors in
  let errors :=
    if str_truthy environment
       && negb (bool_decide (lower environment ∈ allowed_envs))
    then errors ++ [err_environment]
    else errors in
  let errors :=
    if str_truthy tenant_name
       && negb (isalnum (remove_char UNDERSCORE (remove_char HYPHEN tenant_name)))
    then errors ++ [err_tenant]
    else errors in
  errors.
End Validate.


(** ** Requests, responses, exceptions *)

(** Truth value of a Python value. *)
Definition truthy (v : json) : bool :=
  match v with
  | JNull => false
  | JBool b => b
  | JInt n => negb (n =? 0)%Z
  | JFloat nonzero => nonzero
  | JStr s => str_truthy s
  | JArr l => match l with [] => false | _ => true end
  | JObj d => match d with [] => false | _ => true end
  end.

(** Lookup by first match: [MultiDict.get] on the query string, [dict.get]
    on a parsed object. *)
Fixpoint assoc {V : Type} (k : pystr) (l : list (pystr * V)) : option V :=
  match l with
  | [] => None
  | (k', v) :: l' => if bool_decide (k = k') then Some v else assoc k l'
  end.

(** [None] or the string. *)
Definition of_opt (o : option pystr) : json :=
  match o with
  | None => JNull
  | Some s => JStr s
  end.

Inductive http_method := GET | POST.

(** [request.get_json()]: the parsed body ([JNull] when Flask hands back
    [None]), or an exception for a body it refuses. *)
Inductive body_result :=
| BodyRaises
| BodyJson (v : json).

Record request := {
  method : http_method;
  args : list (pystr * pystr);
  body : body_result;
  authorization : option pystr
}.

(** [jsonify(d), code] *)
Record response := {
  status_code : N;
  payload : list (pystr * json)
}.

Definition jsonify (d : list (pystr * json)) (code : N) : response :=
  {| status_code := code; payload := d |}.

Inductive exn :=
| AttributeError
| TypeError
| ValueError
| IndexError
| OSError
| SubprocessError
| BadRequest
| RequestException.

Definition exn_eqb (a b : exn) : bool :=
  match a, b with
  | AttributeError, AttributeError | TypeError, TypeError
  | ValueError, ValueError | IndexError, IndexError | OSError, OSError
  | SubprocessError, SubprocessError | BadRequest, BadRequest
  | RequestException, RequestException => true
  | _, _ => false
  end.

(** A computation that touches nothing: a value or an exception. *)
Inductive result (A : Type) :=
| Ok (a : A)
| Err (e : exn).
Arguments Ok {A} a.
Arguments Err {A} e.

Definition rbind {A B : Type} (m : result A) (k : A → result B) : result B :=
  match m with
  | Ok a => k a
  | Err e => Err e
  end.

Declare Scope result_scope.
Delimit Scope result_scope with res.
Notation "'let?' x ':=' m 'in' k" := (rbind m (λ x, k))
  (at level 10, x pattern, m at level 100, k at level 200) : result_scope.

(** ** The world outside the process *)

(** The external calls of the two handlers, in the order of the source. *)
Inductive step :=
| SMkdtemp | SClone | SChdir | SMakedirs | SCreate | SAppend
| SConfigName | SConfigEmail | SAdd | SCommit | SPush
| SChdirRoot | SRmtree | SHttpGet.

Inductive log_level := INFO | ERROR.

Inductive event :=
| EvMkdtemp (dir : pystr)
| EvRun (argv : list pystr)
| EvChdir (dir : pystr)
| EvRmtree (dir : pystr)
| EvHttpGet (url ref username password : pystr)
| EvLog (level : log_level) (msg : pystr) (exc : option exn).

(** The scratch directory: tracked files by repository path, and the
    directories that exist without a tracked file in them. *)
Record workspace := {
  files : gmap pystr pystr;
  dirs : gset pystr
}.

Inductive cwd_state := CwdStart | CwdScratch | CwdRoot.

(** The remote repository is a map from branch to tree, a tree a map from
    path to file text. *)
Record world := {
  remote : gmap pystr (gmap pystr pystr);
  scratch : option workspace;
  cwd : cwd_state;
  trace : list event
}.

(** What the environment decides in one run: which external call raises,
    which git command the remote or git turns down for a reason outside the
    model, the diagnostic text, the name [mkdtemp] picks, whether a path
    outside the clone exists, and the answer of the raw-content endpoint as
    a function of the repository and of the request the handler sends. *)
Record oracle := {
  fault : step → option exn;
  rejects : step → bool;
  stderr_of : step → pystr;
  temp_dir : pystr;
  outside_exists : bool;
  upstream : gmap pystr (gmap pystr pystr) → pystr → pystr → pystr → pystr → N * pystr
}.

(** ** A monad for the handlers

    A computation ends normally, by a [return] of the handler, or by an
    exception; the world is threaded through. *)
Inductive outcome (A : Type) :=
| Normal (a : A)
| Returned (r : response)
| Raised (e : exn).
Arguments Normal {A} a.
Arguments Returned {A} r.
Arguments Raised {A} e.

Definition M (A : Type) : Type := world → outcome A * world.

Definition ret {A : Type} (a : A) : M A := λ w, (Normal a, w).

Definition bind {A B : Type} (m : M A) (k : A → M B) : M B :=
  λ w, match m w with
       | (Normal a, w') => k a w'
       | (Returned r, w') => (Returned r, w')
       | (Raised e, w') => (Raised e, w')
       end.

Definition return_ {A : Type} (r : response) : M A := λ w, (Returned r, w).

Definition raise {A : Type} (e : exn) : M A := λ w, (Raised e, w).

(** [try: body  except (kinds): handler] *)
Definition try_except {A : Type} (body : M A) (catches : exn → bool)
    (handler : exn → M A) : M A :=
  λ w, match body w with
       | (Raised e, w') => if catches e then handler e w' else (Raised e, w')
       | r => r
       end.

(** [try: body  finally: fin]: [fin] runs on every way out of [body], and
    the way out of [body] stands unless [fin] itself returns or raises. *)
Definition try_finally {A : Type} (body : M A) (fin : M unit) : M A :=
  λ w, match body w with
       | (o, w') =>
           match fin w' with
           | (Normal _, w'') => (o, w'')
           | (Returned r, w'') => (Returned r, w'')
           | (Raised e, w'') => (Raised e, w'')
           end
       end.

Definition lift {A : Type} (r : result A) : M A :=
  λ w, match r with
       | Ok a => (Normal a, w)
       | Err e => (Raised e, w)
       end.

Definition emit (e : event) : M unit :=
  λ w, (Normal (),
        {| remote := remote w; scratch := scratch w; cwd := cwd w;
           trace := trace w ++ [e] |}).

Definition log (level : log_level) (msg : pystr) (exc : option exn) : M unit :=
  emit (EvLog level msg exc).

Definition set_scratch (s : option workspace) : M unit :=
  λ w, (Normal (),
        {| remote := remote w; scratch := s; cwd := cwd w; trace := trace w |}).

Definition set_cwd (c : cwd_state) : M unit :=
  λ w, (Normal (),
        {| remote := remote w; scratch := scratch w; cwd := c; trace := trace w |}).

Definition set_remote (r : gmap pystr (gmap pystr pystr)) : M unit :=
  λ w, (Normal (),
        {| remote := r; scratch := scratch w; cwd := cwd w; trace := trace w |}).

Definition get_world : M world := λ w, (Normal w, w).

Declare Scope py_scope.
Delimit Scope py_scope with py.
Notation "'let*' x ':=' m 'in' k" := (bind m (λ x, k))
  (at level 10, x pattern, m at level 100, k at level 200) : py_scope.
Notation "m '>>' k" := (bind m (λ _, k))
  (at level 100, k at level 200, right associativity) : py_scope.
Local Open Scope py_scope.

(** ** Paths inside the clone *)

Definition DOT_GIT : pystr := py ".git".

(** A path that names a place in the tracked tree: relative, no empty, [.]
    or [..] component, not inside [.git], no NUL. *)
Definition repo_relative (p : pystr) : bool :=
  forallb (λ c, str_truthy c
                && negb (bool_decide (c ∈ [py "."; py ".."; DOT_GIT])))
          (split SLASH p)
  && negb (bool_decide (0 ∈ p)).

Inductive path_kind :=
| InTree (p : pystr)
| Outside
| NotAPath.

(** How [os.path.exists] and [open] read their argument: a [str] is a path,
    in the tree or not; an [int] or [bool] is a file descriptor; anything
    else is a [TypeError]. *)
Definition classify (v : json) : path_kind :=
  match v with
  | JStr s => if repo_relative s then InTree s else Outside
  | JInt _ | JBool _ => Outside
  | _ => NotAPath
  end.

Definition empty_workspace : workspace := {| files := ∅; dirs := ∅ |}.

Definition ws_is_dir (ws : workspace) (p : pystr) : bool :=
  bool_decide (p ∈ dirs ws)
  || existsb (λ kv, startswith (p ++ [SLASH]) kv.1) (map_to_list (files ws)).

Definition ws_exists (ws : workspace) (p : pystr) : bool :=
  bool_decide (is_Some (files ws !! p)) || ws_is_dir ws p.

(** The directory part of a path: everything before the last [/]. *)
Definition parent (p : pystr) : pystr :=
  join [SLASH] (removelast (split SLASH p)).

Definition parent_ok (ws : workspace) (p : pystr) : bool :=
  negb (str_truthy (parent p)) || ws_is_dir ws (parent p).

(** ** Configuration *)

Definition BITBUCKET_URL : pystr := py "git-bitbucket.aws.fico.com:8443".
Definition PROJECT_KEY : pystr := py "SRE-PLATFORM".
Definition REPO_SLUG : pystr := py "fico-pto-tenant".
Definition DEFAULT_FILE : pystr := py "Whitelist.csv".

(** ** Pieces shared by the two handlers *)

Section Handlers.
Context {L : StdLib} (o : oracle).

(** [bytes.decode('utf-8')]: ASCII bytes are their own code points. *)
Definition utf8_decode (b : list N) : option pystr :=
  if forallb is_ascii b then Some b else uc_utf8_decode b.

Definition hex_digit (n : N) : N := if n <? 10 then 48 + n else 55 + n.

Definition percent (b : N) : pystr :=
  [37; hex_digit (b / 16); hex_digit (b mod 16)].

(** [urllib.parse.quote(s, safe='')]: letters, digits and [_.-~] stay,
    every other character becomes the percent-escapes of its UTF-8
    bytes. *)
Definition quote (s : pystr) : pystr :=
  flat_map (λ c, if is_ascii c
                 then if ascii_isalnum c
                         || bool_decide (c ∈ [95; 46; 45; 126])
                      then [c] else percent c
                 else flat_map percent (uc_utf8_encode c)) s.

(** [str(v)] as an f-string interpolates it. *)
Definition format_value (v : json) : pystr :=
  match v with
  | JStr s => s
  | _ => repr_value v
  end.

(** [data.get(key, dflt)]: [data] is the body or [{}]; a body that is
    not an object has no [get]. *)
Definition dict_get (data : json) (key : pystr) (dflt : json) : result json :=
  match data with
  | JObj d => Ok (default dflt (assoc key d))
  | _ => Err AttributeError
  end.

(** [request.get_json() or {}] *)
Definition get_json_or_empty (req : request) : result json :=
  match body req with
  | BodyRaises => Err BadRequest
  | BodyJson v => Ok (if truthy v then v else JObj [])
  end.

(** A [str] method called on a value that is known to be truthy: a value
    that is not a [str] has none of [strip], [lower] and [replace]. *)
Definition str_method (v : json) : result pystr :=
  match v with
  | JStr s => Ok s
  | _ => Err AttributeError
  end.

(** The body of the [try] that decodes the header, the same in both
    handlers: [auth_header.split(' ')[1]], [b64decode], [decode('utf-8')]
    and the unpacking of [creds.split(':', 1)]. *)
Definition decode_credentials (auth_header : pystr) : result (pystr * pystr) :=
  match split SPACE auth_header !! 1%nat with
  | None => Err IndexError
  | Some encoded_creds =>
      match b64decode encoded_creds ≫= utf8_decode with
      | None => Err ValueError
      | Some creds =>
          match split1 COLON creds with
          | [username; password] => Ok (username, password)
          | _ => Err ValueError
          end
      end
  end.

Definition index_or_value (e : exn) : bool :=
  exn_eqb e IndexError || exn_eqb e ValueError.

Definition internal_server_error : response :=
  jsonify [(py "error", JStr (py "Internal server error"))] 500.

(** ** The write path *)

(** Lines 63-82: where each field is taken from. *)
Definition add_params (req : request) : result (json * json * json * json) :=
  (let environment := of_opt (assoc (py "environment") (args req)) in
   let tenant_name := of_opt (assoc (py "tenant") (args req)) in
   let file_name := default DEFAULT_FILE (assoc (py "file") (args req)) in
   let? data := get_json_or_empty req in
   let? entry := dict_get data (py "entry") JNull in
   let? environment :=
     if negb (truthy environment)
     then dict_get data (py "environment") JNull else Ok environment in
   let? tenant_name :=
     if negb (truthy tenant_name)
     then dict_get data (py "tenant") JNull else Ok tenant_name in
   let? file_name :=
     if bool_decide (file_name = DEFAULT_FILE)
     then dict_get data (py "file") (JStr DEFAULT_FILE)
     else Ok (JStr file_name) in
   let entry :=
     if negb (truthy entry) then of_opt (assoc (py "entry") (args req))
     else entry in
   Ok (entry, environment, tenant_name, file_name))%res.

Definition the_scratch (w : world) : workspace :=
  default empty_workspace (scratch w).

Definition set_workspace (ws : workspace) : M unit := set_scratch (Some ws).

(** [subprocess.run(argv, check=True)] *)
Definition run (s : step) (argv : list pystr) : M unit :=
  emit (EvRun argv) >>
  match fault o s with
  | Some e => raise e
  | None => ret ()
  end.

(** [tempfile.mkdtemp(prefix='whitelist_')] *)
Definition mkdtemp : M pystr :=
  match fault o SMkdtemp with
  | Some e => raise e
  | None =>
      emit (EvMkdtemp (temp_dir o)) >>
      set_workspace empty_workspace >>
      ret (temp_dir o)
  end.

(** [git clone -b branch --depth 1 url dir]: exit status and stderr.  The
    clone succeeds when the branch exists and the remote lets the
    credentials in; it then holds the tree of the branch. *)
Definition git_clone (branch_name repo_url dir : pystr) : M (Z * pystr) :=
  emit (EvRun [py "git"; py "clone"; py "-b"; branch_name; py "--depth";
               py "1"; repo_url; dir]) >>
  match fault o SClone with
  | Some e => raise e
  | None =>
      let* w := get_world in
      match remote w !! branch_name with
      | Some tree =>
          if rejects o SClone then ret (128%Z, stderr_of o SClone)
          else set_workspace {| files := tree; dirs := {[DOT_GIT]} |} >>
               ret (0%Z, [])
      | None => ret (128%Z, stderr_of o SClone)
      end
  end.

Definition chdir (s : step) (dir : pystr) (c : cwd_state) : M unit :=
  emit (EvChdir dir) >>
  match fault o s with
  | Some e => raise e
  | None => set_cwd c
  end.

(** [os.path.exists(v)], relative to the clone. *)
Definition os_path_exists (v : json) : M bool :=
  match classify v with
  | InTree p => let* w := get_world in ret (ws_exists (the_scratch w) p)
  | Outside => ret (outside_exists o)
  | NotAPath => raise TypeError
  end.

(** [os.makedirs(p, exist_ok=True)] *)
Definition makedirs (p : pystr) : M unit :=
  match fault o SMakedirs with
  | Some e => raise e
  | None =>
      let* w := get_world in
      let ws := the_scratch w in
      if repo_relative p
      then set_workspace {| files := files ws; dirs := dirs ws ∪ {[p]} |}
      else ret ()
  end.

(** [with open(v, mode) as f: f.write(text)], [mode] being ['w'] or
    ['a'].  A write to a path outside the tree, or to a file descriptor,
    leaves the tracked files as they are. *)
Definition write_file (s : step) (append : bool) (v : json) (text : pystr)
  : M unit :=
  match fault o s with
  | Some e => raise e
  | None =>
      match classify v with
      | NotAPath => raise TypeError
      | Outside => ret ()
      | InTree p =>
          let* w := get_world in
          let ws := the_scratch w in
          if ws_is_dir ws p || negb (parent_ok ws p) then raise OSError
          else
            let old := if append then default [] (files ws !! p) else [] in
            set_workspace {| files := <[p := old ++ text]> (files ws);
                             dirs := dirs ws |}
      end
  end.

(** [git commit -m msg]: fails when nothing changed against the tree that
    was cloned. *)
Definition git_commit (branch_name msg : pystr) : M (Z * pystr) :=
  emit (EvRun [py "git"; py "commit"; py "-m"; msg]) >>
  match fault o SCommit with
  | Some e => raise e
  | None =>
      let* w := get_world in
      if bool_decide (Some (files (the_scratch w)) = remote w !! branch_name)
         || rejects o SCommit
      then ret (1%Z, stderr_of o SCommit)
      else ret (0%Z, [])
  end.

(** [git push origin branch]: on success the branch holds the tree of the
    clone. *)
Definition git_push (branch_name : pystr) : M (Z * pystr) :=
  emit (EvRun [py "git"; py "push"; py "origin"; branch_name]) >>
  match fault o SPush with
  | Some e => raise e
  | None =>
      if rejects o SPush then ret (1%Z, stderr_of o SPush)
      else
        let* w := get_world in
        set_remote (<[branch_name := files (the_scratch w)]> (remote w)) >>
        ret (0%Z, [])
  end.

(** [requests.get(url, auth=(username, password), params={"at": ref},
    verify=False, timeout=30)]: status code and text. *)
Definition requests_get (url ref username password : pystr) : M (N * pystr) :=
  emit (EvHttpGet url ref username password) >>
  match fault o SHttpGet with
  | Some e => raise e
  | None =>
      let* w := get_world in
      ret (upstream o (remote w) url ref username password)
  end.

(** [shutil.rmtree(dir)] *)
Definition rmtree (dir : pystr) : M unit :=
  emit (EvRmtree dir) >>
  match fault o SRmtree with
  | Some e => raise e
  | None => set_scratch None
  end.

(** The [finally] block, lines 218-225. *)
Definition cleanup (dir : pystr) : M unit :=
  try_except
    (chdir SChdirRoot [SLASH] CwdRoot >>
     let* w := get_world in
     if bool_decide (is_Some (scratch w)) then rmtree dir else ret ())
    (λ _, true)
    (λ cleanup_error, log ERROR (py "Cleanup failed: ") (Some cleanup_error)).

Definition file_header (tenant_name environment : pystr) : pystr :=
  py "# Whitelist for " ++ tenant_name ++ py " in " ++ environment
    ++ [NEWLINE] ++ py "# Format: IP,Description,Status" ++ [NEWLINE].

(** The 200 response of the write path, lines 205-216. *)
Definition add_success (entry environment branch_name tenant_name
    folder_name : pystr) (file_name file_path : json) (commit_message : pystr)
  : response :=
  jsonify
    [(py "status", JStr (py "success"));
     (py "message", JStr (py "Entry added successfully to "
                          ++ format_value file_path ++ py " in " ++ environment
                          ++ py " environment"));
     (py "entry", JStr entry);
     (py "environment", JStr environment);
     (py "branch", JStr branch_name);
     (py "tenant", JStr tenant_name);
     (py "folder", JStr folder_name);
     (py "file", file_name);
     (py "file_path", file_path);
     (py "commit_message", JStr commit_message)] 200.

(** The body of the inner [try], lines 137-216. *)
Definition mutate (entry environment tenant_name : pystr) (file_name : json)
    (branch_name folder_name username repo_url dir : pystr) : M response :=
  log INFO (py "Cloning branch '" ++ branch_name ++ py "' for user '"
            ++ username ++ py "'") None >>
  let* clone_result := git_clone branch_name repo_url dir in
  if negb (clone_result.1 =? 0)%Z then
    log ERROR (py "Git clone failed: " ++ clone_result.2) None >>
    return_ (jsonify
      [(py "error", JStr (py "Failed to clone branch '" ++ branch_name ++ py "'"));
       (py "suggestion", JStr (py "Make sure branch '" ++ branch_name
                               ++ py "' exists in the repository"))] 500)
  else
  chdir SChdir dir CwdScratch >>
  let* folder_exists := os_path_exists (JStr folder_name) in
  (if negb folder_exists then
     log INFO (py "Creating folder structure: " ++ folder_name) None >>
     makedirs folder_name
   else ret ()) >>
  let file_path := file_name in
  let* file_exists := os_path_exists file_path in
  (if negb file_exists
   then write_file SCreate false file_path (file_header tenant_name environment)
   else ret ()) >>
  log INFO (py "Adding entry '" ++ entry ++ py "' to " ++ format_value file_path
            ++ py " for tenant " ++ tenant_name) None >>
  write_file SAppend true file_path (entry ++ [NEWLINE]) >>
  run SConfigName [py "git"; py "config"; py "user.name"; username] >>
  run SConfigEmail [py "git"; py "config"; py "user.email";
                    username ++ py "@fico.com"] >>
  run SAdd [py "git"; py "add"; py "."] >>
  let commit_message :=
    py "Add " ++ tenant_name ++ py " whitelist entry in " ++ environment
      ++ py ": " ++ entry in
  let* commit_result := git_commit branch_name commit_message in
  if negb (commit_result.1 =? 0)%Z then
    log ERROR (py "Git commit failed: " ++ commit_result.2) None >>
    return_ (jsonify
      [(py "error", JStr (py "Failed to commit: " ++ commit_result.2))] 500)
  else
  let* push_result := git_push branch_name in
  if negb (push_result.1 =? 0)%Z then
    log ERROR (py "Git push failed: " ++ push_result.2) None >>
    return_ (jsonify
      [(py "error", JStr (py "Failed to push to branch '" ++ branch_name
                          ++ py "': " ++ push_result.2))] 500)
  else
  log INFO (py "Successfully added entry for " ++ tenant_name ++ py " in "
            ++ environment) None >>
  return_ (add_success entry environment branch_name tenant_name folder_name
             file_name file_path commit_message).
End Handlers.

(** ** The two endpoints *)

Section Endpoints.
Context {L : StdLib} (o : oracle).

Definition missing_field (what usage : string) : response :=
  jsonify [(py "error", JStr (py what)); (py "usage", JStr (py usage))] 400.

(** Lines 62-225 of [add_whitelist_entry], inside the outer [try]. *)
Definition add_body (req : request) : M response :=
  let* (entry, environment, tenant_name, file_name) := lift (add_params req) in
  if negb (truthy entry) then
    return_ (missing_field "Entry field is required"
               "Include 'entry' in JSON body or as query parameter")
  else if negb (truthy environment) then
    return_ (missing_field "Environment field is required"
               "Use ?environment=ort or include in JSON body")
  else if negb (truthy tenant_name) then
    return_ (missing_field "Tenant field is required"
               "Use ?tenant=FICO-PTO-TENANT or include in JSON body")
  else
  let* entry := lift (str_method entry) in
  let* environment := lift (str_method environment) in
  let* tenant_name := lift (str_method tenant_name) in
  let validation_errors := validate_input entry environment tenant_name in
  if negb (bool_decide (validation_errors = [])) then
    return_ (jsonify [(py "error", JStr (py "Validation failed"));
                      (py "details", JArr (JStr <$> validation_errors))] 400)
  else
  let branch_name := py "jenkins-store-" ++ lower environment in
  let folder_name := tenant_name in
  let auth_header := authorization req in
  if negb (from_option str_truthy false auth_header)
     || negb (startswith (py "Basic ") (default [] auth_header))
  then
    return_ (jsonify [(py "error", JStr (py "Basic Authorization required"))] 401)
  else
  let* (username, password) :=
    try_except (lift (decode_credentials (default [] auth_header))) index_or_value
      (λ _, return_ (jsonify
         [(py "error", JStr (py "Invalid authorization header format"))] 401)) in
  let encoded_username := quote username in
  let encoded_password := quote password in
  let repo_url :=
    py "https://" ++ encoded_username ++ [COLON] ++ encoded_password
      ++ py "@" ++ BITBUCKET_URL ++ py "/scm/sre-platform/fico-pto-tenant.git" in
  let* dir := mkdtemp o in
  try_finally
    (mutate o entry environment tenant_name file_name branch_name folder_name
            username repo_url dir)
    (cleanup o dir).

(** What the client gets: the handler's [return], or the generic body of
    the outer [except] and of the 500 error handler. *)
Definition respond (name : pystr) (handler : M response)
  : world → response * world :=
  λ w, match try_except handler (λ _, true)
               (λ e, log ERROR name (Some e) >> return_ internal_server_error) w with
       | (Normal r, w') => (r, w')
       | (Returned r, w') => (r, w')
       | (Raised _, w') => (internal_server_error, w')
       end.

Definition add_whitelist_entry (req : request) : world → response * world :=
  respond (py "Unexpected error in add_whitelist_entry: ") (add_body req).

(** [x or y], [y] evaluated only when [x] is false. *)
Definition or_else (x : json) (y : result json) : result json :=
  if truthy x then Ok x else y.

(** Lines 235-244: where [view_whitelist] takes each field from. *)
Definition view_params (req : request) : result (json * json * json) :=
  match method req with
  | GET =>
      Ok (of_opt (assoc (py "environment") (args req)),
          of_opt (assoc (py "tenant") (args req)),
          JStr (default DEFAULT_FILE (assoc (py "file") (args req))))
  | POST =>
      (let? data := get_json_or_empty req in
       let? environment :=
         or_else (of_opt (assoc (py "environment") (args req)))
                 (dict_get data (py "environment") JNull) in
       let? tenant_name :=
         or_else (of_opt (assoc (py "tenant") (args req)))
                 (dict_get data (py "tenant") JNull) in
       let? file_name :=
         or_else (of_opt (assoc (py "file") (args req)))
                 (dict_get data (py "file") (JStr DEFAULT_FILE)) in
       Ok (environment, tenant_name, file_name))%res
  end.

(** The lines of the file as the 200 response lists them. *)
Definition view_lines (text : pystr) : list pystr :=
  if str_truthy (strip text) then split NEWLINE (strip text) else [].

(** The 200 response of the read path, lines 278-290. *)
Definition view_found (environment tenant_name file_name : json)
    (branch_name folder_name file_path text : pystr) : response :=
  let lines := view_lines text in
  jsonify
    [(py "status", JStr (py "success"));
     (py "content", JStr text);
     (py "lines", JArr (JStr <$> lines));
     (py "line_count", JInt (Z.of_nat (length lines)));
     (py "environment", environment);
     (py "branch", JStr branch_name);
     (py "tenant", tenant_name);
     (py "folder", JStr folder_name);
     (py "file", file_name);
     (py "file_path", JStr file_path)] 200.

(** The response that forwards any other upstream status, lines 292-297. *)
Definition view_not_found (file_path branch_name : pystr) (code : N)
  : response :=
  jsonify
    [(py "error", JStr (py "File not found or access denied"));
     (py "file_path", JStr file_path);
     (py "branch", JStr branch_name);
     (py "status_code", JInt (Z.of_N code))] code.

(** Lines 234-298 of [view_whitelist], inside the [try]. *)
Definition view_body (req : request) : M response :=
  let* (environment, tenant_name, file_name) := lift (view_params req) in
  if negb (truthy environment) || negb (truthy tenant_name) then
    return_ (missing_field "Environment and tenant are required"
               "Use ?environment=ort&tenant=FICO-PTO-TENANT or include in JSON body")
  else
  let* environment_str := lift (str_method environment) in
  let branch_name := py "jenkins-store-" ++ lower environment_str in
  let folder_name := py "tenants/" ++ format_value tenant_name in
  let file_path := folder_name ++ [SLASH] ++ format_value file_name in
  let auth_header := authorization req in
  if negb (from_option str_truthy false auth_header) then
    return_ (jsonify [(py "error", JStr (py "Authorization required"))] 401)
  else
  let* (username, password) :=
    try_except (lift (decode_credentials (default [] auth_header))) index_or_value
      (λ _, return_ (jsonify
         [(py "error", JStr (py "Invalid authorization header"))] 401)) in
  let api_url :=
    py "https://" ++ BITBUCKET_URL ++ py "/rest/api/1.0/projects/"
      ++ PROJECT_KEY ++ py "/repos/" ++ REPO_SLUG ++ py "/raw/" ++ file_path in
  let* response := requests_get o api_url branch_name username password in
  if (response.1 =? 200)%N then
    return_ (view_found environment tenant_name file_name branch_name
               folder_name file_path response.2)
  else
    return_ (view_not_found file_path branch_name response.1).

Definition view_whitelist (req : request) : world → response * world :=
  respond (py "Error in view_whitelist: ") (view_body req).
End Endpoints.

(** ** A remote that serves what it holds, and sample requests *)

Fixpoint strip_prefix (p s : pystr) : option pystr :=
  match p, s with
  | [], _ => Some s
  | _ :: _, [] => None
  | a :: p', b :: s' => if a =? b then strip_prefix p' s' else None
  end.

Definition RAW_PREFIX : pystr :=
  py "https://" ++ BITBUCKET_URL ++ py "/rest/api/1.0/projects/"
    ++ PROJECT_KEY ++ py "/repos/" ++ REPO_SLUG ++ py "/raw/".

(** The raw-content endpoint of a remote that lets every caller in: the
    text of the file at the path behind [raw/], on the branch named by
    [at], or 404. *)
Definition bitbucket_raw (repo : gmap pystr (gmap pystr pystr))
    (url ref username password : pystr) : N * pystr :=
  match strip_prefix RAW_PREFIX url with
  | Some path =>
      match repo !! ref ≫= (λ tree, tree !! path) with
      | Some text => (200, text)
      | None => (404, py "not found")
      end
  | None => (404, [])
  end.

(** Nothing raises, nothing is turned down. *)
Definition fair_weather : oracle :=
  {| fault := λ _, None;
     rejects := λ _, false;
     stderr_of := λ _, [];
     temp_dir := py "/tmp/whitelist_k3x9";
     outside_exists := false;
     upstream := bitbucket_raw |}.

(** The oracle [o] with the two calls of the cleanup made to raise or not. *)
Definition with_cleanup (o : oracle) (chdir_root rm : option exn) : oracle :=
  {| fault := λ s, match s with
                   | SChdirRoot => chdir_root
                   | SRmtree => rm
                   | _ => fault o s
                   end;
     rejects := rejects o;
     stderr_of := stderr_of o;
     temp_dir := temp_dir o;
     outside_exists := outside_exists o;
     upstream := upstream o |}.

Definition ORT_BRANCH : pystr := py "jenkins-store-ort".

(** user [u], password [p] *)
Definition sample_basic : pystr := py "Basic dTpw".

Definition sample_entry : pystr := py "1.2.3.4,office,active".

Definition sample_body : json :=
  JObj [(py "entry", JStr sample_entry);
        (py "environment", JStr (py "ort"));
        (py "tenant", JStr (py "acme-corp"))].

Definition sample_add : request :=
  {| method := POST; args := []; body := BodyJson sample_body;
     authorization := Some sample_basic |}.

Definition sample_view : request :=
  {| method := GET;
     args := [(py "environment", py "ort"); (py "tenant", py "acme-corp")];
     body := BodyJson JNull;
     authorization := Some sample_basic |}.

(** A remote whose branch [jenkins-store-ort] is there and empty. *)
Definition world0 : world :=
  {| remote := {[ ORT_BRANCH := ∅ ]}; scratch := None; cwd := CwdStart;
     trace := [] |}.

(** ** Vocabulary of the statements *)

Section Vocabulary.
Context {L : StdLib}.

(** A character a tenant name may be made of. *)
Definition tenant_char (c : N) : bool :=
  char_isalnum c || (c =? HYPHEN) || (c =? UNDERSCORE).

(** Only white space, the empty string included. *)
Definition whitespace_only (s : pystr) : Prop :=
  Forall (λ c, char_isspace c = true) s.

(** The environment is one of the allowed names up to case. *)
Definition matches_allowed (environment : pystr) : Prop :=
  ∃ a, a ∈ allowed_envs ∧ lower environment = lower a.

(** One of the two messages about the entry is in the list. *)
Definition entry_error (errors : list pystr) : Prop :=
  err_entry_empty ∈ errors ∨ err_entry_long ∈ errors.

(** The three checks of [validate_input], one by one. *)
Definition entry_errors (entry : pystr) : list pystr :=
  if negb (str_truthy entry) || (length (strip entry) =? 0)%nat
  then [err_entry_empty]
  else if (500 <? length entry)%nat then [err_entry_long] else [].

Definition environment_errors (environment : pystr) : list pystr :=
  if str_truthy environment
     && negb (bool_decide (lower environment ∈ allowed_envs))
  then [err_environment] else [].

Definition tenant_errors (tenant_name : pystr) : list pystr :=
  if str_truthy tenant_name
     && negb (isalnum (remove_char UNDERSCORE (remove_char HYPHEN tenant_name)))
  then [err_tenant] else [].
End Vocabulary.



(** A computation that, when it leaves by [return], returns a response
    satisfying [P]. *)
Definition returns_only {A : Type} (P : response → Prop) (m : M A) : Prop :=
  ∀ w, match (m w).1 with
       | Returned r => P r
       | _ => True
       end.

(** A handler body whose response, however it is produced, satisfies [P]. *)
Definition responds_with (P : response → Prop) (m : M response) : Prop :=
  ∀ w, match (m w).1 with
       | Normal r | Returned r => P r
       | Raised _ => True
       end.

(** *** Sample requests and worlds of the statements below *)

Definition TENANT_FILE : pystr := py "tenants/acme-corp/Whitelist.csv".

(** The sample POST without its Authorization header. *)
Definition sample_add_no_auth : request :=
  {| method := POST; args := []; body := BodyJson sample_body;
     authorization := None |}.

(** The sample GET with another scheme in front of the same credentials. *)
Definition sample_view_bearer : request :=
  {| method := GET;
     args := [(py "environment", py "ort"); (py "tenant", py "acme-corp")];
     body := BodyJson JNull;
     authorization := Some (py "Bearer dTpw") |}.

(** A remote that holds the file the read path asks for, with text [t]. *)
Definition world_with (t : pystr) : world :=
  {| remote := {[ ORT_BRANCH := {[ TENANT_FILE := t ]} ]}; scratch := None;
     cwd := CwdStart; trace := [] |}.


(** An entry in the query string and another one in the body. *)
Definition sample_add_both : request :=
  {| method := POST;
     args := [(py "entry", py "from-query")];
     body := BodyJson (JObj [(py "entry", JStr (py "from-body"));
                             (py "environment", JStr (py "ort"));
                             (py "tenant", JStr (py "acme-corp"))]);
     authorization := Some sample_basic |}.

(** [?environment=prod&tenant=t1&file=Rules.csv] with a body that names
    other values for the three and has no entry. *)
Definition sample_add_query : request :=
  {| method := POST;
     args := [(py "environment", py "prod"); (py "tenant", py "t1");
              (py "file", py "Rules.csv"); (py "entry", py "e1")];
     body := BodyJson (JObj [(py "environment", JStr (py "dev"));
                             (py "tenant", JStr (py "t2"));
                             (py "file", JStr (py "Other.csv"))]);
     authorization := Some sample_basic |}.

(** [?file=Whitelist.csv] in the query string, [Other.csv] in the body. *)
Definition sample_add_file_default : request :=
  {| method := POST;
     args := [(py "file", DEFAULT_FILE)];
     body := BodyJson (JObj [(py "entry", JStr sample_entry);
                             (py "environment", JStr (py "ort"));
                             (py "tenant", JStr (py "acme-corp"));
                             (py "file", JStr (py "Other.csv"))]);
     authorization := Some sample_basic |}.

(** The same request with no [file] in the query string. *)
Definition sample_add_file_absent : request :=
  {| method := POST;
     args := [];
     body := body sample_add_file_default;
     authorization := Some sample_basic |}.

(** The events a run added to the trace. *)
Definition new_events (w w' : world) : list event :=
  drop (length (trace w)) (trace w').

(** *** Vocabulary of the further properties *)

(** What a step that only logs, or only runs a command, leaves alone. *)
Definition same_repo (w w' : world) : Prop :=
  remote w' = remote w ∧ scratch w' = scratch w.

(** * Properties *)

(** ** Strings *)

Section StringFacts.
Context {L : StdLib}.

Lemma lstrip_nil s : lstrip s = [] ↔ whitespace_only s.
Proof.
  unfold whitespace_only. induction s as [|c s IH]; simpl.
  - split; [constructor | done].
  - destruct (char_isspace c) eqn:Hc.
    + rewrite IH. split; [by constructor | by inversion 1].
    + split; [done | inversion 1; congruence].
Qed.

Lemma lstrip_head s c s' : lstrip s = c :: s' → char_isspace c = false.
Proof.
  induction s as [|a s IH]; simpl; [done|].
  destruct (char_isspace a) eqn:Ha; [auto | congruence].
Qed.

Lemma lstrip_whitespace_nil s : whitespace_only (lstrip s) → lstrip s = [].
Proof.
  destruct (lstrip s) as [|c s'] eqn:E; [done|].
  intros H. apply lstrip_head in E. inversion H; congruence.
Qed.

Lemma strip_nil s : strip s = [] ↔ whitespace_only s.
Proof.
  unfold strip, rstrip. split.
  - intros H. apply lstrip_nil, lstrip_whitespace_nil.
    apply (f_equal (@rev N)) in H. rewrite rev_involutive in H. simpl in H.
    apply lstrip_nil in H. unfold whitespace_only in *.
    rewrite <- (rev_involutive (lstrip s)). by apply Forall_rev.
  - intros H. apply lstrip_nil in H. by rewrite H.
Qed.


Lemma lower_ascii s : forallb is_ascii s = true → lower s = map ascii_lower s.
Proof. unfold lower. by intros ->. Qed.

Lemma hyphen_not_alnum : char_isalnum HYPHEN = false.
Proof. reflexivity. Qed.

Lemma underscore_not_alnum : char_isalnum UNDERSCORE = false.
Proof. reflexivity. Qed.
End StringFacts.

(** ** The validator *)

Section ValidationFacts.
Context {L : StdLib}.

Lemma validate_input_parts entry environment tenant_name :
  validate_input entry environment tenant_name
  = entry_errors entry ++ environment_errors environment
      ++ tenant_errors tenant_name.
Proof.
  unfold validate_input, entry_errors, environment_errors, tenant_errors.
  repeat case_match; reflexivity.
Qed.

Lemma messages_distinct :
  err_entry_empty ≠ err_entry_long ∧ err_entry_empty ≠ err_environment
  ∧ err_entry_empty ≠ err_tenant ∧ err_entry_long ≠ err_environment
  ∧ err_entry_long ≠ err_tenant ∧ err_environment ≠ err_tenant.
Proof. repeat split; discriminate. Qed.

Lemma elem_of_entry_errors x entry :
  x ∈ entry_errors entry → x = err_entry_empty ∨ x = err_entry_long.
Proof.
  unfold entry_errors.
  destruct (_ || _); [|destruct (_ <? _)%nat];
    rewrite ?list_elem_of_singleton; auto.
  by intros ?%elem_of_nil.
Qed.

Lemma elem_of_environment_errors x environment :
  x ∈ environment_errors environment
  ↔ x = err_environment ∧ environment_errors environment = [err_environment].
Proof.
  unfold environment_errors. case_match; rewrite ?list_elem_of_singleton.
  - tauto.
  - split; [by intros ?%elem_of_nil | by intros [_ ?]].
Qed.

Lemma elem_of_tenant_errors x tenant_name :
  x ∈ tenant_errors tenant_name
  ↔ x = err_tenant ∧ tenant_errors tenant_name = [err_tenant].
Proof.
  unfold tenant_errors. case_match; rewrite ?list_elem_of_singleton.
  - tauto.
  - split; [by intros ?%elem_of_nil | by intros [_ ?]].
Qed.

Lemma tenant_error_in entry environment tenant_name :
  err_tenant ∈ validate_input entry environment tenant_name
  ↔ tenant_errors tenant_name = [err_tenant].
Proof.
  destruct messages_distinct as (? & ? & ? & ? & ? & ?).
  rewrite validate_input_parts, !elem_of_app,
    elem_of_environment_errors, elem_of_tenant_errors.
  split; [|tauto].
  intros [[?|?]%elem_of_entry_errors|[[? _]|[_ ?]]]; congruence.
Qed.

Lemma environment_error_in entry environment tenant_name :
  err_environment ∈ validate_input entry environment tenant_name
  ↔ environment_errors environment = [err_environment].
Proof.
  destruct messages_distinct as (? & ? & ? & ? & ? & ?).
  rewrite validate_input_parts, !elem_of_app,
    elem_of_environment_errors, elem_of_tenant_errors.
  split; [|tauto].
  intros [[?|?]%elem_of_entry_errors|[[_ ?]|[? _]]]; congruence.
Qed.

Lemma entry_error_in entry environment tenant_name :
  entry_error (validate_input entry environment tenant_name)
  ↔ entry_errors entry ≠ [].
Proof.
  destruct messages_distinct as (? & ? & ? & ? & ? & ?).
  unfold entry_error.
  rewrite validate_input_parts, !elem_of_app,
    !elem_of_environment_errors, !elem_of_tenant_errors.
  split.
  - intros [[Hin|[[? _]|[? _]]]|[Hin|[[? _]|[? _]]]] E; try congruence;
      rewrite E in Hin; by apply elem_of_nil in Hin.
  - unfold entry_errors.
    destruct (_ || _); [|destruct (_ <? _)%nat]; [ | |done]; intros _.
    + left. left. by apply list_elem_of_singleton.
    + right. left. by apply list_elem_of_singleton.
Qed.

Lemma entry_errors_nil entry :
  entry_errors entry = []
  ↔ ¬ whitespace_only entry ∧ (length entry ≤ 500)%nat.
Proof.
  unfold entry_errors.
  destruct (negb (str_truthy entry) || (length (strip entry) =? 0)%nat) eqn:E.
  - split; [done|]. intros [Hw _]. exfalso. apply Hw.
    apply orb_true_iff in E as [E|E].
    + destruct entry; [constructor | done].
    + apply Nat.eqb_eq, length_zero_iff_nil in E. by apply strip_nil.
  - apply orb_false_iff in E as [_ E].
    apply Nat.eqb_neq in E.
    assert (¬ whitespace_only entry) as Hw.
    { intros Hw. apply strip_nil in Hw. by rewrite Hw in E. }
    destruct (500 <? length entry)%nat eqn:E5.
    + apply Nat.ltb_lt in E5. split; [done | lia].
    + apply Nat.ltb_ge in E5. done.
Qed.

(** What is left of a tenant name once hyphens and underscores are gone. *)
Lemma elem_of_tenant_rest c tenant_name :
  c ∈ remove_char UNDERSCORE (remove_char HYPHEN tenant_name)
  ↔ c ≠ UNDERSCORE ∧ c ≠ HYPHEN ∧ c ∈ tenant_name.
Proof. unfold remove_char. rewrite !list_elem_of_filter. tauto. Qed.

Lemma tenant_char_cases c :
  tenant_char c = true
  ↔ char_isalnum c = true ∨ c = HYPHEN ∨ c = UNDERSCORE.
Proof.
  unfold tenant_char. rewrite !orb_true_iff, !N.eqb_eq. tauto.
Qed.

Lemma alnum_not_separator c :
  char_isalnum c = true → c ≠ UNDERSCORE ∧ c ≠ HYPHEN.
Proof.
  intros H. split; intros ->.
  - by rewrite underscore_not_alnum in H.
  - by rewrite hyphen_not_alnum in H.
Qed.

Lemma isalnum_spec s :
  isalnum s = true ↔ s ≠ [] ∧ Forall (λ c, char_isalnum c = true) s.
Proof.
  destruct s as [|a s]; [by split; [|intros []] |].
  unfold isalnum. rewrite forallb_forall, Forall_forall.
  split.
  - intros H. split; [done|]. intros x Hx. apply H. by apply list_elem_of_In.
  - intros [_ H] x Hx. apply H. by apply list_elem_of_In.
Qed.

Lemma tenant_rest_alnum tenant_name :
  isalnum (remove_char UNDERSCORE (remove_char HYPHEN tenant_name)) = true
  ↔ Forall (λ c, tenant_char c = true) tenant_name
    ∧ Exists (λ c, char_isalnum c = true) tenant_name.
Proof.
  rewrite isalnum_spec, !Forall_forall, Exists_exists. split.
  - intros [Hne Hall]. split.
    + intros c Hc. apply tenant_char_cases.
      destruct (decide (c = HYPHEN)); [auto|].
      destruct (decide (c = UNDERSCORE)); [auto|].
      left. apply Hall, elem_of_tenant_rest. done.
    + destruct (remove_char UNDERSCORE (remove_char HYPHEN tenant_name))
        as [|c r] eqn:E; [done|].
      assert (c ∈ c :: r) as Hc by left.
      exists c. split; [| by apply Hall].
      rewrite <- E in Hc. by apply elem_of_tenant_rest in Hc as (_ & _ & ?).
  - intros [Hall (c & Hc & Ha)]. split.
    + intros E. pose proof (alnum_not_separator c Ha) as [? ?].
      assert (c ∈ remove_char UNDERSCORE (remove_char HYPHEN tenant_name)) as Hin
        by by apply elem_of_tenant_rest.
      rewrite E in Hin. by apply elem_of_nil in Hin.
    + intros x Hx. apply elem_of_tenant_rest in Hx as (? & ? & Hx).
      apply Hall, tenant_char_cases in Hx. intuition congruence.
Qed.

Lemma tenant_errors_spec tenant_name :
  tenant_errors tenant_name = [err_tenant]
  ↔ tenant_name ≠ []
    ∧ ¬ (Forall (λ c, tenant_char c = true) tenant_name
         ∧ Exists (λ c, char_isalnum c = true) tenant_name).
Proof.
  unfold tenant_errors. rewrite <- tenant_rest_alnum.
  destruct tenant_name as [|a t]; [simpl; intuition congruence|].
  simpl str_truthy.
  destruct (isalnum _); simpl; intuition congruence.
Qed.

Lemma lower_allowed a : a ∈ allowed_envs → lower a = a.
Proof.
  unfold allowed_envs. rewrite !elem_of_cons, elem_of_nil.
  intros [->|[->|[->|[->|[->|[->|[]]]]]]]; reflexivity.
Qed.

Lemma matches_allowed_spec environment :
  matches_allowed environment ↔ lower environment ∈ allowed_envs.
Proof.
  split.
  - intros (a & Ha & E). rewrite E, lower_allowed; done.
  - intros H. exists (lower environment). split; [done|].
    by rewrite (lower_allowed _ H).
Qed.

(** On an ASCII environment the match is the plain one: the name with its
    capital letters lowered is in the list. *)
Lemma matches_allowed_ascii environment :
  forallb is_ascii environment = true →
  matches_allowed environment ↔ map ascii_lower environment ∈ allowed_envs.
Proof. intros H. by rewrite matches_allowed_spec, lower_ascii. Qed.

Lemma environment_errors_spec environment :
  environment_errors environment = [err_environment]
  ↔ environment ≠ [] ∧ ¬ matches_allowed environment.
Proof.
  unfold environment_errors. rewrite matches_allowed_spec.
  destruct environment as [|a e]; [simpl; intuition congruence|].
  simpl str_truthy. case_bool_decide; simpl; intuition congruence.
Qed.
End ValidationFacts.

Arguments py : simpl never.

(** ** Lines of a text *)




Section LineFacts.
Context {L : StdLib}.




End LineFacts.

(** ** Running a handler *)

(** One step of a handler: unfold the monad, keep the literals folded. *)
Ltac run :=
  cbv beta iota zeta delta
    [bind lift try_except try_finally return_ ret raise log emit get_world
     set_scratch set_cwd set_remote set_workspace respond fst snd];
  cbn [remote scratch cwd trace].

Ltac not_in_list H :=
  repeat (apply elem_of_cons in H as [H|H]; [discriminate|]);
  by apply elem_of_nil in H.

Lemma new_events_same w : new_events w w = [].
Proof. unfold new_events. apply drop_all. Qed.

Lemma new_events_app w w' evs :
  trace w' = trace w ++ evs → new_events w w' = evs.
Proof. unfold new_events. intros ->. by rewrite drop_app_length. Qed.

Section ReturnRules.
Context {A B : Type} (P : response → Prop).

Lemma ro_ret (a : A) : returns_only P (ret a).
Proof. by intros w. Qed.

Lemma ro_raise e : returns_only P (@raise A e).
Proof. by intros w. Qed.

Lemma ro_return r : P r → returns_only P (@return_ A r).
Proof. by intros H w. Qed.

Lemma ro_lift (x : result A) : returns_only P (lift x).
Proof. intros w. by destruct x. Qed.

Lemma ro_emit ev : returns_only P (emit ev).
Proof. by intros w. Qed.

Lemma ro_get_world : returns_only P get_world.
Proof. by intros w. Qed.

Lemma ro_set_scratch s : returns_only P (set_scratch s).
Proof. by intros w. Qed.

Lemma ro_set_cwd c : returns_only P (set_cwd c).
Proof. by intros w. Qed.

Lemma ro_set_remote r : returns_only P (set_remote r).
Proof. by intros w. Qed.

Lemma ro_bind (m : M A) (k : A → M B) :
  returns_only P m → (∀ a, returns_only P (k a)) → returns_only P (bind m k).
Proof.
  intros Hm Hk w. unfold bind. specialize (Hm w).
  destruct (m w) as [[a|r|e] w1]; simpl in *; [apply Hk | done | done].
Qed.

Lemma rw_return r : P r → responds_with P (return_ r).
Proof. by intros H w. Qed.

Lemma rw_bind (m : M A) (k : A → M response) :
  returns_only P m → (∀ a, responds_with P (k a)) → responds_with P (bind m k).
Proof.
  intros Hm Hk w. unfold bind. specialize (Hm w).
  destruct (m w) as [[a|r|e] w1]; simpl in *; [apply Hk | done | done].
Qed.
End ReturnRules.

Ltac ro_step :=
  first
    [ apply ro_ret | apply ro_raise | apply ro_lift | apply ro_emit
    | apply ro_get_world | apply ro_set_scratch | apply ro_set_cwd
    | apply ro_set_remote
    | apply ro_bind; [|intros ?]
    | apply rw_bind; [|intros ?]
    | match goal with
      | |- returns_only _ (match ?x with _ => _ end) => destruct x
      | |- returns_only _ (if ?x then _ else _) => destruct x
      | |- responds_with _ (match ?x with _ => _ end) => destruct x
      | |- responds_with _ (if ?x then _ else _) => destruct x
      end ].

Ltac ro := repeat ro_step.

Section HandlerFacts.
Context {L : StdLib}.
Implicit Types (o : oracle) (w : world) (req : request).

(** The responses of the mutator: the success response carries the branch
    it was given, the error responses carry none. *)
Lemma mutate_responds o entry environment tenant_name file_name branch_name
    folder_name username repo_url dir :
  responds_with
    (λ r, assoc (py "branch") (payload r) = None
          ∨ assoc (py "branch") (payload r) = Some (JStr branch_name))
    (mutate o entry environment tenant_name file_name branch_name folder_name
       username repo_url dir).
Proof.
  unfold mutate, git_clone, chdir, os_path_exists, makedirs, write_file, run,
    git_commit, git_push, log, set_workspace.
  ro; apply rw_return; auto.
Qed.

(** The [finally] block never raises and never returns; when neither of
    its two calls fails, the scratch directory is gone after it. *)
Lemma cleanup_normal o dir w2 :
  ∃ w3, cleanup o dir w2 = (Normal (), w3)
        ∧ remote w3 = remote w2
        ∧ (fault o SChdirRoot = None → fault o SRmtree = None
           → scratch w3 = None).
Proof.
  unfold cleanup, chdir, rmtree. run.
  destruct (fault o SChdirRoot) as [e|] eqn:Hc; run.
  { eexists. split; [done|]. split; [done|]. done. }
  destruct (bool_decide (is_Some (scratch w2))) eqn:Hs; run.
  - destruct (fault o SRmtree) as [e|] eqn:Hr; run.
    + eexists. split; [done|]. split; [done|]. done.
    + eexists. split; [done|]. split; [done|]. done.
  - eexists. split; [done|]. split; [done|]. intros _ _.
    apply bool_decide_eq_false in Hs.
    destruct (scratch w2); [|done]. exfalso. apply Hs. by eexists.
Qed.

Lemma mutate_ignores_cleanup o f1 f2 e v t fi b fo u url dir :
  mutate (with_cleanup o f1 f2) e v t fi b fo u url dir
  = mutate o e v t fi b fo u url dir.
Proof. reflexivity. Qed.

(** What [view_whitelist] answers: an early response without a branch, or
    the rendering of the upstream's reply to the one read it issued. *)
Lemma view_whitelist_inv o req w r w' :
  view_whitelist o req w = (r, w') →
  (status_code r ≠ 200 ∧ assoc (py "branch") (payload r) = None)
  ∨ ∃ v ten fil u p,
      let branch_name := py "jenkins-store-" ++ lower v in
      let folder_name := py "tenants/" ++ format_value ten in
      let file_path := folder_name ++ [SLASH] ++ format_value fil in
      let url := py "https://" ++ BITBUCKET_URL ++ py "/rest/api/1.0/projects/"
                   ++ PROJECT_KEY ++ py "/repos/" ++ REPO_SLUG ++ py "/raw/"
                   ++ file_path in
      let resp := upstream o (remote w) url branch_name u p in
      view_params req = Ok (JStr v, ten, fil)
      ∧ trace w' = trace w ++ [EvHttpGet url branch_name u p]
      ∧ r = if resp.1 =? 200
            then view_found (JStr v) ten fil branch_name folder_name file_path
                   resp.2
            else view_not_found file_path branch_name resp.1.
Proof.
  unfold view_whitelist, view_body.
  destruct (view_params req) as [[[env ten] fil]|e] eqn:Ep; run.
  2:{ intros [= <- <-]. by left. }
  destruct (negb (truthy env) || negb (truthy ten)) eqn:Hreq; run.
  { intros [= <- <-]. by left. }
  destruct (str_method env) as [v|e] eqn:Ev; run.
  2:{ intros [= <- <-]. by left. }
  destruct env; try discriminate. injection Ev as ->.
  destruct (negb (from_option str_truthy false (authorization req))) eqn:Ha; run.
  { intros [= <- <-]. by left. }
  destruct (decode_credentials _) as [[u p]|e] eqn:Ed; run.
  2:{ destruct (index_or_value e); run; intros [= <- <-]; by left. }
  unfold requests_get; run.
  destruct (fault o SHttpGet) eqn:Hf; run.
  { intros [= <- <-]; by left. }
  intros H. right. exists v, ten, fil, u, p. cbv zeta.
  destruct (upstream o _ _ _ _ _) as [code text]; run.
  cbn [fst snd] in *.
  destruct (code =? 200); injection H as <- <-; done.
Qed.
End HandlerFacts.

(** * The claims *)

Implicit Types (o : oracle) (w : world) (req : request).

(** ** C9 *)

(** C9: [validate_input] reports an error about the entry exactly when the
    entry is empty, made of white space only, or longer than 500
    characters; in particular an entry of 1 to 500 characters with at
    least one character that is not white space passes. *)
Theorem entry_error_iff {L : StdLib} entry environment tenant_name :
  (entry_error (validate_input entry environment tenant_name)
   ↔ entry = [] ∨ whitespace_only entry ∨ (500 < length entry)%nat)
  ∧ ((1 ≤ length entry ≤ 500)%nat
     → Exists (λ c, char_isspace c = false) entry
     → ¬ entry_error (validate_input entry environment tenant_name)).
Proof.
  rewrite entry_error_in.
  pose proof (entry_errors_nil entry) as Hnil.
  assert (Decision (whitespace_only entry)) as [Hw|Hw]
    by (unfold whitespace_only; apply _).
  - split.
    + split; [auto|]. intros _ E. apply Hnil in E as [? _]. done.
    + intros _ Hex _. apply Exists_exists in Hex as (c & Hc & Hs).
      unfold whitespace_only in Hw. rewrite Forall_forall in Hw.
      specialize (Hw c Hc). congruence.
  - split.
    + split.
      * intros Hne. right. right.
        destruct (decide (length entry ≤ 500)%nat); [|lia].
        exfalso. apply Hne, Hnil. done.
      * intros [->|[?|Hlen]] E; [apply Hw; constructor | done |].
        apply Hnil in E as [_ ?]. lia.
    + intros [_ Hlen] _ Hne. apply Hne, Hnil. done.
Qed.

Lemma entry_error_iff_witness :
  (1 ≤ length sample_entry ≤ 500)%nat
  ∧ (entry_error (validate_input (L:=ascii_lib) sample_entry (py "ort")
                    (py "acme-corp")) → False).
Proof.
  assert (length sample_entry = 21%nat) as Hlen by reflexivity.
  split; [lia|].
  apply (proj2 (entry_error_iff (L:=ascii_lib) sample_entry (py "ort")
                  (py "acme-corp"))).
  - lia.
  - apply Exists_cons_hd. reflexivity.
Defined.

(** ** C2 *)


(** The general form of the counterexample: a name that is not empty and
    made of hyphens and underscores only gets the tenant error. *)
Lemma tenant_of_separators_rejected {L : StdLib} entry environment tenant_name :
  tenant_name ≠ [] →
  Forall (λ c, c = HYPHEN ∨ c = UNDERSCORE) tenant_name →
  err_tenant ∈ validate_input entry environment tenant_name.
Proof.
  intros Hne Hsep. rewrite tenant_error_in, tenant_errors_spec.
  split; [done|]. intros [_ Hex].
  apply Exists_exists in Hex as (c & Hc & Ha).
  rewrite Forall_forall in Hsep. apply alnum_not_separator in Ha as [? ?].
  destruct (Hsep c Hc); done.
Qed.



(** ** C8 *)

(** An exit of [add_whitelist_entry] before the mutator: the response has
    no branch. *)
Ltac no_branch :=
  let H := fresh in let Hb := fresh in
  intros ? H Hb; injection H as <- <-; vm_compute in Hb; discriminate Hb.

Lemma add_whitelist_entry_branch {L : StdLib} o req w r w' b :
  add_whitelist_entry o req w = (r, w') →
  assoc (py "branch") (payload r) = Some b →
  ∃ e v t f,
    add_params req = Ok (JStr e, JStr v, JStr t, f)
    ∧ matches_allowed v
    ∧ b = JStr (py "jenkins-store-" ++ lower v).
Proof.
  revert b. unfold add_whitelist_entry, add_body, mkdtemp.
  destruct (add_params req) as [[[[en ev] te] fi]|x] eqn:Ep; run; [|no_branch].
  destruct (negb (truthy en)); run; [no_branch|].
  destruct (negb (truthy ev)) eqn:Hev; run; [no_branch|].
  destruct (negb (truthy te)); run; [no_branch|].
  destruct (str_method en) as [e|?] eqn:Ee; run; [|no_branch].
  destruct (str_method ev) as [v|?] eqn:Ev; run; [|no_branch].
  destruct (str_method te) as [t|?] eqn:Et; run; [|no_branch].
  destruct en, ev, te; try discriminate.
  injection Ee as ->. injection Ev as ->. injection Et as ->.
  destruct (negb (bool_decide (validate_input e v t = []))) eqn:Hval; run.
  { intros ? H Hb; injection H as <- <-. cbn in Hb. discriminate Hb. }
  destruct (negb (from_option str_truthy false (authorization req))
            || negb (startswith (py "Basic ") (default [] (authorization req))));
    run; [no_branch|].
  destruct (decode_credentials _) as [[u p]|x]; run;
    [|destruct (index_or_value x); run; no_branch].
  destruct (fault o SMkdtemp); run; [no_branch|].
  match goal with |- context [mutate ?a ?b ?c ?d ?e ?f ?g ?h ?i ?j ?w] =>
    pose proof (mutate_responds a b c d e f g h i j w) as Hm;
    destruct (mutate a b c d e f g h i j w) as [out w2] end.
  destruct (cleanup_normal o (temp_dir o) w2) as (w3 & -> & _).
  cbn [fst] in Hm.
  assert (matches_allowed v) as Hmatch.
  { apply negb_false_iff, bool_decide_eq_true in Hval.
    apply negb_false_iff in Hev. cbn in Hev.
    apply matches_allowed_spec.
    destruct (decide (lower v ∈ allowed_envs)) as [|Hn]; [done|].
    assert (err_environment ∈ validate_input e v t) as Hin.
    { apply environment_error_in, environment_errors_spec.
      split; [by intros -> | by rewrite matches_allowed_spec]. }
    rewrite Hval in Hin. by apply elem_of_nil in Hin. }
  intros b H Hb.
  assert (assoc (py "branch") (payload r)
          = Some (JStr (py "jenkins-store-" ++ lower v))) as Hr.
  { destruct out; run; injection H as <- <-;
      [destruct Hm; congruence | destruct Hm; congruence |].
    vm_compute in Hb. discriminate Hb. }
  exists e, v, t, fi. split; [done|]. split; [done|]. congruence.
Qed.

Lemma view_whitelist_branch {L : StdLib} o req w r w' b :
  view_whitelist o req w = (r, w') →
  assoc (py "branch") (payload r) = Some b →
  ∃ v ten fil,
    view_params req = Ok (JStr v, ten, fil)
    ∧ b = JStr (py "jenkins-store-" ++ lower v).
Proof.
  intros H Hb. apply view_whitelist_inv in H as [[_ Hn]|H]; [congruence|].
  destruct H as (v & ten & fil & u & p & Hp & _ & ->).
  exists v, ten, fil. split; [done|].
  destruct (_ =? 200); vm_compute in Hb; injection Hb as <-; reflexivity.
Qed.

(** C8: an environment that matches one of the six allowed names up to case
    gets no environment error, every other environment that is not empty
    gets it, and the branch of a response, on the write path and on the
    read path, is [jenkins-store-] followed by the environment in lower
    case. *)
Theorem environment_and_branch {L : StdLib} :
  (∀ entry environment tenant_name,
     matches_allowed environment
     → err_environment ∉ validate_input entry environment tenant_name)
  ∧ (∀ entry environment tenant_name,
       environment ≠ [] → ¬ matches_allowed environment
       → err_environment ∈ validate_input entry environment tenant_name)
  ∧ (∀ o req w r w' b,
       add_whitelist_entry o req w = (r, w')
       → assoc (py "branch") (payload r) = Some b
       → ∃ e v t f,
           add_params req = Ok (JStr e, JStr v, JStr t, f)
           ∧ matches_allowed v
           ∧ b = JStr (py "jenkins-store-" ++ lower v))
  ∧ (∀ o req w r w' b,
       view_whitelist o req w = (r, w')
       → assoc (py "branch") (payload r) = Some b
       → ∃ v ten fil,
           view_params req = Ok (JStr v, ten, fil)
           ∧ b = JStr (py "jenkins-store-" ++ lower v)).
Proof.
  split; [|split; [|split]].
  - intros e v t Hm. rewrite environment_error_in, environment_errors_spec.
    by intros [_ ?].
  - intros e v t Hne Hm. by rewrite environment_error_in, environment_errors_spec.
  - apply @add_whitelist_entry_branch.
  - apply @view_whitelist_branch.
Qed.

Lemma environment_and_branch_witness :
  (err_environment ∈ validate_input (L:=ascii_lib) sample_entry (py "StAgInG")
                       (py "acme-corp") → False)
  ∧ err_environment ∈ validate_input (L:=ascii_lib) sample_entry (py "bogus")
                        (py "acme-corp")
  ∧ (∃ e v t f,
       add_params sample_add = Ok (JStr e, JStr v, JStr t, f)
       ∧ matches_allowed (L:=ascii_lib) v
       ∧ JStr (py "jenkins-store-ort") = JStr (py "jenkins-store-" ++ lower (L:=ascii_lib) v))
  ∧ (∃ v ten fil,
       view_params sample_view = Ok (JStr v, ten, fil)
       ∧ JStr (py "jenkins-store-ort") = JStr (py "jenkins-store-" ++ lower (L:=ascii_lib) v)).
Proof.
  pose proof (environment_and_branch (L:=ascii_lib)) as (H1 & H2 & H3 & H4).
  split; [|split; [|split]].
  - apply H1. exists (py "staging"). split; [|reflexivity].
    do 4 apply list_elem_of_further. apply list_elem_of_here.
  - apply H2; [discriminate|].
    intros (a & Ha & E). vm_compute in E.
    unfold allowed_envs in Ha. repeat (apply elem_of_cons in Ha as [->|Ha]; [discriminate E|]).
    by apply elem_of_nil in Ha.
  - eapply (H3 fair_weather sample_add world0); [apply surjective_pairing|].
    reflexivity.
  - eapply (H4 fair_weather sample_view world0); [apply surjective_pairing|].
    reflexivity.
Defined.

(** ** C3 *)

(** C3, as stated, fails: with an entry in the query string and another in
    the body, the handler works on the one of the body. *)
Lemma add_entry_taken_from_body :
  assoc (py "entry") (args sample_add_both) = Some (py "from-query")
  ∧ add_params sample_add_both
    = Ok (JStr (py "from-body"), JStr (py "ort"), JStr (py "acme-corp"),
          JStr DEFAULT_FILE).
Proof. split; reflexivity. Qed.

(** C3, amended: on a body that is an object (or empty), the environment
    and the tenant are the query values when these are there and not
    empty, and the body's values otherwise; the entry is the body's value
    when that is there and true, and the query value otherwise; the file is
    the query value when that is there and is not [Whitelist.csv], and the
    body's value, [Whitelist.csv] by default, when the query has none. *)
Theorem add_params_sources req d :
  get_json_or_empty req = Ok (JObj d) →
  ∃ entry environment tenant_name file_name,
    add_params req = Ok (entry, environment, tenant_name, file_name)
    ∧ (∀ q, assoc (py "environment") (args req) = Some q → q ≠ []
            → environment = JStr q)
    ∧ (assoc (py "environment") (args req) = None
       ∨ assoc (py "environment") (args req) = Some []
       → environment = default JNull (assoc (py "environment") d))
    ∧ (∀ q, assoc (py "tenant") (args req) = Some q → q ≠ []
            → tenant_name = JStr q)
    ∧ (assoc (py "tenant") (args req) = None
       ∨ assoc (py "tenant") (args req) = Some []
       → tenant_name = default JNull (assoc (py "tenant") d))
    ∧ (∀ b, assoc (py "entry") d = Some b → truthy b = true → entry = b)
    ∧ (truthy (default JNull (assoc (py "entry") d)) = false
       → entry = of_opt (assoc (py "entry") (args req)))
    ∧ (∀ q, assoc (py "file") (args req) = Some q → q ≠ DEFAULT_FILE
            → file_name = JStr q)
    ∧ (assoc (py "file") (args req) = None
       → file_name = default (JStr DEFAULT_FILE) (assoc (py "file") d)).
Proof.
  intros Hd. unfold add_params. rewrite Hd. cbn [rbind dict_get].
  destruct (assoc (py "environment") (args req)) as [[|ce qe]|] eqn:Ee;
    destruct (assoc (py "tenant") (args req)) as [[|ct qt]|] eqn:Et;
    destruct (assoc (py "file") (args req)) as [qf|] eqn:Ef; simpl;
    try (destruct (decide (qf = DEFAULT_FILE)) as [->|Hq];
         [rewrite bool_decide_eq_true_2 by done
         |rewrite bool_decide_eq_false_2 by done]);
    try rewrite bool_decide_eq_true_2 by done; simpl;
    (eexists _, _, _, _; split; [reflexivity|]);
    repeat split;
    try (intros q [= <-] Hq'; done);
    try (intros [Hx|Hx]; by simplify_eq);
    try (intros b Hb Ht; rewrite Hb; simpl; by rewrite Ht);
    try (intros Hx; by rewrite Hx);
    try (intros _; done);
    try (intros; simplify_eq; done).
Qed.

Lemma add_params_sources_witness :
  add_params sample_add_query
  = Ok (JStr (py "e1"), JStr (py "prod"), JStr (py "t1"), JStr (py "Rules.csv")).
Proof.
  destruct (add_params_sources sample_add_query
              [(py "environment", JStr (py "dev")); (py "tenant", JStr (py "t2"));
               (py "file", JStr (py "Other.csv"))] eq_refl)
    as (e & v & t & f & -> & Hv & _ & Ht & _ & _ & He & Hf & _).
  rewrite (Hv (py "prod") eq_refl) by discriminate.
  rewrite (Ht (py "t1") eq_refl) by discriminate.
  rewrite (He eq_refl).
  rewrite (Hf (py "Rules.csv") eq_refl) by discriminate.
  reflexivity.
Defined.

(** ** C10 *)

(** C10: a query string with [file=Whitelist.csv] is handled like one with
    no [file], whatever else the request holds; the file is then the one
    the body names. *)
Theorem file_default_in_query_is_absent {L : StdLib} o req req' w :
  body req' = body req →
  authorization req' = authorization req →
  (∀ k, k ≠ py "file" → assoc k (args req') = assoc k (args req)) →
  assoc (py "file") (args req) = Some DEFAULT_FILE →
  assoc (py "file") (args req') = None →
  add_whitelist_entry o req w = add_whitelist_entry o req' w
  ∧ (∀ d v, get_json_or_empty req = Ok (JObj d)
            → assoc (py "file") d = Some v
            → ∃ entry environment tenant_name,
                add_params req = Ok (entry, environment, tenant_name, v)).
Proof.
  intros Hbody Hauth Hargs Hfile Hfile'.
  assert (get_json_or_empty req' = get_json_or_empty req) as Hjson
    by (unfold get_json_or_empty; by rewrite Hbody).
  assert (add_params req' = add_params req) as Hparams.
  { unfold add_params.
    rewrite Hjson, Hfile, Hfile', !Hargs by discriminate. reflexivity. }
  split.
  - unfold add_whitelist_entry, add_body. by rewrite Hparams, Hauth.
  - intros d v Hd Hv.
    unfold add_params. rewrite Hd, Hfile.
    cbn [rbind dict_get default from_option].
    rewrite bool_decide_eq_true_2 by done.
    rewrite Hv. cbn [rbind from_option default].
    repeat match goal with
           | |- context [if ?c then _ else _] => destruct c
           end; cbn [rbind]; eauto.
Qed.

Lemma file_default_in_query_is_absent_witness :
  add_whitelist_entry (L:=ascii_lib) fair_weather sample_add_file_default world0
  = add_whitelist_entry (L:=ascii_lib) fair_weather sample_add_file_absent world0
  ∧ ∃ entry environment tenant_name,
      add_params sample_add_file_default
      = Ok (entry, environment, tenant_name, JStr (py "Other.csv")).
Proof.
  destruct (file_default_in_query_is_absent (L:=ascii_lib) fair_weather
              sample_add_file_default sample_add_file_absent world0
              eq_refl eq_refl) as [H1 H2].
  - intros k Hk. cbn. rewrite bool_decide_eq_false_2 by done. reflexivity.
  - reflexivity.
  - reflexivity.
  - split; [exact H1|]. eapply H2; reflexivity.
Defined.

(** ** C7 *)

(** C7: a request whose fields are all there and valid and that has no
    Authorization header is answered 401 and leaves the world as it was:
    no scratch directory, no clone, no event at all. *)
Theorem add_without_authorization {L : StdLib} o req w e v t f :
  authorization req = None →
  add_params req = Ok (JStr e, JStr v, JStr t, f) →
  e ≠ [] → v ≠ [] → t ≠ [] →
  validate_input e v t = [] →
  add_whitelist_entry o req w
  = (jsonify [(py "error", JStr (py "Basic Authorization required"))] 401, w).
Proof.
  intros Hauth Hp He Hv Ht Hval.
  unfold add_whitelist_entry, add_body. rewrite Hp, Hauth. run.
  destruct e, v, t; try done. cbn [truthy str_truthy negb str_method]. run.
  rewrite Hval. reflexivity.
Qed.

Lemma add_without_authorization_witness :
  add_whitelist_entry (L:=ascii_lib) fair_weather sample_add_no_auth world0
  = (jsonify [(py "error", JStr (py "Basic Authorization required"))] 401,
     world0).
Proof.
  apply (add_without_authorization (L:=ascii_lib) fair_weather
           sample_add_no_auth world0
           sample_entry (py "ort") (py "acme-corp") (JStr DEFAULT_FILE));
    try reflexivity; discriminate.
Defined.

(** ** C6 *)

(** An exit before the scratch directory exists: the run added at most a
    log line. *)
Ltac early :=
  let H := fresh in let Hd := fresh in
  intros H [? Hd]; injection H as <- <-;
  first [ rewrite new_events_same in Hd
        | erewrite new_events_app in Hd by (cbn [trace]; reflexivity) ];
  not_in_list Hd.

Lemma add_scratch_removed {L : StdLib} o req w r w' :
  add_whitelist_entry o req w = (r, w') →
  (∃ d, EvMkdtemp d ∈ new_events w w') →
  fault o SChdirRoot = None → fault o SRmtree = None →
  scratch w' = None.
Proof.
  unfold add_whitelist_entry, add_body, mkdtemp.
  destruct (add_params req) as [[[[en ev] te] fi]|x] eqn:Ep; run; [|early].
  destruct (negb (truthy en)); run; [early|].
  destruct (negb (truthy ev)); run; [early|].
  destruct (negb (truthy te)); run; [early|].
  destruct (str_method en) as [e|?]; run; [|early].
  destruct (str_method ev) as [v|?]; run; [|early].
  destruct (str_method te) as [t|?]; run; [|early].
  destruct (negb (bool_decide (validate_input e v t = []))); run; [early|].
  destruct (negb (from_option str_truthy false (authorization req))
            || negb (startswith (py "Basic ") (default [] (authorization req))));
    run; [early|].
  destruct (decode_credentials _) as [[u p]|x]; run;
    [|destruct (index_or_value x); run; early].
  destruct (fault o SMkdtemp); run; [early|].
  match goal with |- context [mutate ?a ?b ?c ?d ?e ?f ?g ?h ?i ?j ?w] =>
    destruct (mutate a b c d e f g h i j w) as [out w2] end.
  destruct (cleanup_normal o (temp_dir o) w2) as (w3 & -> & _ & Hs).
  intros H _ Hc Hr. specialize (Hs Hc Hr).
  destruct out; run; injection H as <- <-; done.
Qed.

Lemma add_response_ignores_cleanup {L : StdLib} o req w f1 f2 :
  (add_whitelist_entry (with_cleanup o f1 f2) req w).1
  = (add_whitelist_entry o req w).1.
Proof.
  unfold add_whitelist_entry, add_body, mkdtemp.
  destruct (add_params req) as [[[[en ev] te] fi]|x] eqn:Ep; run; [|done].
  destruct (negb (truthy en)); run; [done|].
  destruct (negb (truthy ev)); run; [done|].
  destruct (negb (truthy te)); run; [done|].
  destruct (str_method en) as [e|?]; run; [|done].
  destruct (str_method ev) as [v|?]; run; [|done].
  destruct (str_method te) as [t|?]; run; [|done].
  destruct (negb (bool_decide (validate_input e v t = []))); run; [done|].
  destruct (negb (from_option str_truthy false (authorization req))
            || negb (startswith (py "Basic ") (default [] (authorization req))));
    run; [done|].
  destruct (decode_credentials _) as [[u p]|x]; run;
    [|by destruct (index_or_value x)].
  cbn [fault with_cleanup temp_dir].
  destruct (fault o SMkdtemp); run; [done|].
  rewrite mutate_ignores_cleanup.
  match goal with |- context [mutate ?a ?b ?c ?d ?e ?f ?g ?h ?i ?j ?w] =>
    destruct (mutate a b c d e f g h i j w) as [out w2] end.
  destruct (cleanup_normal o (temp_dir o) w2) as (w3 & -> & _).
  destruct (cleanup_normal (with_cleanup o f1 f2) (temp_dir o) w2)
    as (w4 & -> & _).
  by destruct out.
Qed.

(** C6: when a run of the write path has made its scratch directory, the
    directory is gone at the end of the run, on every way out, as long as
    the cleanup itself does not fail; and whether the cleanup fails or not,
    the client gets the same status and body. *)
Theorem scratch_removed_on_every_exit {L : StdLib} o req w r w' :
  add_whitelist_entry o req w = (r, w') →
  (∃ d, EvMkdtemp d ∈ new_events w w') →
  (fault o SChdirRoot = None → fault o SRmtree = None → scratch w' = None)
  ∧ (∀ f1 f2, (add_whitelist_entry (with_cleanup o f1 f2) req w).1 = r).
Proof.
  intros H Hd. split.
  - by apply (add_scratch_removed o req w r).
  - intros f1 f2. rewrite add_response_ignores_cleanup. by rewrite H.
Qed.

Lemma scratch_removed_on_every_exit_witness :
  scratch (add_whitelist_entry (L:=ascii_lib) fair_weather sample_add world0).2
  = None
  ∧ (add_whitelist_entry (L:=ascii_lib)
       (with_cleanup fair_weather None (Some OSError)) sample_add world0).1
    = (add_whitelist_entry (L:=ascii_lib) fair_weather sample_add world0).1.
Proof.
  destruct (scratch_removed_on_every_exit (L:=ascii_lib) fair_weather
              sample_add world0 _ _ (surjective_pairing _)) as [H1 H2].
  - exists (temp_dir fair_weather). vm_compute. apply list_elem_of_here.
  - split; [by apply H1 | apply H2].
Defined.

(** ** C4 *)




(** ** C5 *)

(** C5 on the code: the read path takes a header of another scheme; it
    decodes what follows the first blank and sends the read upstream, where
    the write path answers the same header with 401 and does nothing. *)
Theorem view_takes_any_scheme :
  status_code
    (view_whitelist (L:=ascii_lib) fair_weather sample_view_bearer
       (world_with sample_entry)).1 = 200
  ∧ new_events (world_with sample_entry)
      (view_whitelist (L:=ascii_lib) fair_weather sample_view_bearer
         (world_with sample_entry)).2
    = [EvHttpGet (RAW_PREFIX ++ TENANT_FILE) ORT_BRANCH (py "u") (py "p")]
  ∧ add_whitelist_entry (L:=ascii_lib) fair_weather
      {| method := POST; args := []; body := BodyJson sample_body;
         authorization := Some (py "Bearer dTpw") |} world0
    = (jsonify [(py "error", JStr (py "Basic Authorization required"))] 401,
       world0).
Proof. repeat split; vm_compute; reflexivity. Qed.

(** ** C1 *)

(** The write path and the read path never name the same file. *)
Lemma read_path_is_not_write_path (tenant_name file_name : pystr) :
  file_name ≠ py "tenants/" ++ tenant_name ++ [SLASH] ++ file_name.
Proof.
  intros H. apply (f_equal length) in H.
  rewrite !length_app in H. cbn in H. lia.
Qed.

(** C1 on the code: the sample entry is added with status 200 and lands,
    after the two header lines, in [Whitelist.csv] at the root of the
    branch; the read of the same environment, tenant and file that follows
    asks for [tenants/acme-corp/Whitelist.csv] and is answered 404, with no
    content at all. *)
Theorem add_then_view_misses_entry :
  status_code (add_whitelist_entry (L:=ascii_lib) fair_weather sample_add world0).1
  = 200
  ∧ remote (add_whitelist_entry (L:=ascii_lib) fair_weather sample_add world0).2
      !! ORT_BRANCH
    = Some {[ DEFAULT_FILE :=
                file_header (py "acme-corp") (py "ort")
                  ++ sample_entry ++ [NEWLINE] ]}
  ∧ status_code
      (view_whitelist (L:=ascii_lib) fair_weather sample_view
         (add_whitelist_entry (L:=ascii_lib) fair_weather sample_add world0).2).1
    = 404
  ∧ assoc (py "content")
      (payload
         (view_whitelist (L:=ascii_lib) fair_weather sample_view
            (add_whitelist_entry (L:=ascii_lib) fair_weather sample_add
               world0).2).1)
    = None
  ∧ assoc (py "file_path")
      (payload
         (view_whitelist (L:=ascii_lib) fair_weather sample_view
            (add_whitelist_entry (L:=ascii_lib) fair_weather sample_add
               world0).2).1)
    = Some (JStr TENANT_FILE).
Proof. repeat split; vm_compute; reflexivity. Qed.

(** * Further properties of the code *)

(** ** The steps of the mutator, one by one *)

Lemma bind_inv {A B : Type} (m : M A) (k : A → M B) w out w' :
  bind m k w = (out, w') →
  ∃ out1 w1, m w = (out1, w1)
    ∧ match out1 with
      | Normal a => k a w1 = (out, w')
      | Returned r => out = Returned r ∧ w' = w1
      | Raised x => out = Raised x ∧ w' = w1
      end.
Proof.
  unfold bind. destruct (m w) as [[a|r|x] w1]; intros H; eexists _, _;
    (split; [reflexivity|]); [done | by injection H | by injection H].
Qed.

Section StepFacts.
Context {L : StdLib}.

Lemma emit_inv ev w out w' :
  emit ev w = (out, w') → out = Normal () ∧ same_repo w w'.
Proof. intros [= <- <-]. by repeat split. Qed.

Lemma chdir_inv o s dir c w out w' :
  chdir o s dir c w = (out, w') →
  same_repo w w' ∧ (out = Normal () ∨ ∃ x, out = Raised x).
Proof.
  unfold chdir. run. destruct (fault o s); run; intros [= <- <-];
    (split; [by split|]); eauto.
Qed.

Lemma run_inv o s argv w out w' :
  run o s argv w = (out, w') →
  same_repo w w' ∧ (out = Normal () ∨ ∃ x, out = Raised x).
Proof.
  unfold run. run. destruct (fault o s); run; intros [= <- <-];
    (split; [by split|]); eauto.
Qed.

Lemma git_clone_inv o b url dir w out w' :
  git_clone o b url dir w = (out, w') →
  remote w' = remote w
  ∧ match out with
    | Normal res =>
        res.1 = 0%Z →
        ∃ tree, remote w !! b = Some tree
                ∧ scratch w' = Some {| files := tree; dirs := {[DOT_GIT]} |}
    | Returned _ => False
    | Raised _ => True
    end.
Proof.
  unfold git_clone. run. destruct (fault o SClone); run.
  { by intros [= <- <-]. }
  destruct (remote w !! b) as [tree|] eqn:Ht; run.
  - destruct (rejects o SClone); run; intros [= <- <-]; (split; [done|]);
      cbn; [done|]. intros _. by exists tree.
  - intros [= <- <-]. split; [done|]. cbn. done.
Qed.

Lemma os_path_exists_inv o v w out w' :
  os_path_exists o v w = (out, w') →
  w' = w
  ∧ out = match classify v with
          | InTree p => Normal (ws_exists (the_scratch w) p)
          | Outside => Normal (outside_exists o)
          | NotAPath => Raised TypeError
          end.
Proof.
  unfold os_path_exists. destruct (classify v); run; by intros [= <- <-].
Qed.

Lemma makedirs_inv o p w out w' :
  makedirs o p w = (out, w') →
  remote w' = remote w
  ∧ files (the_scratch w') = files (the_scratch w)
  ∧ (is_Some (scratch w) → is_Some (scratch w'))
  ∧ (out = Normal () ∨ ∃ x, out = Raised x).
Proof.
  unfold makedirs. destruct (fault o SMakedirs); run.
  { intros [= <- <-]. repeat split; eauto. }
  destruct (repo_relative p); run; intros [= <- <-]; repeat split; eauto.
Qed.

Lemma write_file_inv o s append v text w out w' :
  write_file o s append v text w = (out, w') →
  remote w' = remote w
  ∧ match out with
    | Normal _ =>
        match classify v with
        | InTree p =>
            ws_is_dir (the_scratch w) p = false
            ∧ scratch w'
              = Some {| files :=
                          <[p := (if append
                                  then default [] (files (the_scratch w) !! p)
                                  else []) ++ text]> (files (the_scratch w));
                        dirs := dirs (the_scratch w) |}
        | Outside => w' = w
        | NotAPath => False
        end
    | Returned _ => False
    | Raised _ => w' = w
    end.
Proof.
  unfold write_file. destruct (fault o s); run.
  { by intros [= <- <-]. }
  destruct (classify v) as [p| |]; run; try by intros [= <- <-].
  destruct (ws_is_dir (the_scratch w) p) eqn:Hd; run.
  { by intros [= <- <-]. }
  cbn [orb]. destruct (negb (parent_ok (the_scratch w) p)); run;
    by intros [= <- <-].
Qed.

Lemma git_commit_inv o b msg w out w' :
  git_commit o b msg w = (out, w') →
  same_repo w w'
  ∧ match out with
    | Normal res =>
        res.1 = 0%Z → Some (files (the_scratch w)) ≠ remote w !! b
    | Returned _ => False
    | Raised _ => True
    end.
Proof.
  unfold git_commit. run. destruct (fault o SCommit); run.
  { by intros [= <- <-]. }
  cbv [the_scratch]. cbn [scratch remote].
  case_bool_decide as Hc; cbn [orb].
  - by intros [= <- <-].
  - destruct (rejects o SCommit); by intros [= <- <-].
Qed.

Lemma git_push_inv o b w out w' :
  git_push o b w = (out, w') →
  scratch w' = scratch w
  ∧ match out with
    | Normal res =>
        if (res.1 =? 0)%Z
        then remote w' = <[b := files (the_scratch w)]> (remote w)
        else remote w' = remote w
    | Returned _ => False
    | Raised _ => remote w' = remote w
    end.
Proof.
  unfold git_push. run. destruct (fault o SPush); run.
  { by intros [= <- <-]. }
  destruct (rejects o SPush); run; by intros [= <- <-].
Qed.

Ltac bstep H o w Hm := apply bind_inv in H as (o & w & Hm & H).
Ltac failed H := destruct H as [-> ->]; left; split; [congruence | done].

Lemma mutate_inv o e v t f b fo u url dir w1 out w2 :
  mutate o e v t f b fo u url dir w1 = (out, w2) →
  (remote w2 = remote w1
   ∧ match out with
     | Returned r => status_code r = 500
     | Raised _ => True
     | Normal _ => False
     end)
  ∨ ∃ tree p,
      remote w1 !! b = Some tree
      ∧ classify f = InTree p
      ∧ out = Returned
                (add_success e v b t fo f f
                   (py "Add " ++ t ++ py " whitelist entry in " ++ v
                      ++ py ": " ++ e))
      ∧ remote w2
        = <[b := <[p := default (file_header t v) (tree !! p) ++ e ++ [NEWLINE]]> tree]>
            (remote w1).
Proof.
  intros H. unfold mutate, log in H.
  bstep H o0 wa Hm. apply emit_inv in Hm as [-> [Hra Hsa]].
  bstep H oc wb Hc. apply git_clone_inv in Hc as [Hrb Hc].
  destruct oc as [[rc err]| |x]; [|done|failed H].
  cbn [fst snd] in H, Hc.
  destruct (rc =? 0)%Z eqn:Erc; cbn [negb] in H.
  2:{ revert H. run. intros [= <- <-]. left. split; [cbn; congruence | done]. }
  apply Z.eqb_eq in Erc. destruct (Hc Erc) as (tree & Htree & Hsb). clear Hc.
  rewrite Hra in Htree.
  bstep H od wc Hd. apply chdir_inv in Hd as [[Hrc Hsc] [->|[x ->]]]; [|failed H].
  bstep H oe wd He. apply os_path_exists_inv in He as [-> ->].
  destruct (classify (JStr fo)) as [pf| |];
    [set (a := ws_exists _ pf) in H; clearbody a
    |set (a := outside_exists o) in H; clearbody a
    |failed H].
  all: bstep H og wd Hg.
  all: assert (remote wd = remote wc
               ∧ files (the_scratch wd) = files (the_scratch wc)
               ∧ (is_Some (scratch wc) → is_Some (scratch wd))
               ∧ (og = Normal () ∨ ∃ x, og = Raised x)) as (Hrd & Hfd & Hsd & Hog).
  1,3: destruct (negb a);
    [ bstep Hg oh we Hh; apply emit_inv in Hh as [-> [Hre Hse]];
      apply makedirs_inv in Hg as (? & ? & ? & ?);
      unfold the_scratch in *; rewrite Hre, Hse in *; done
    | injection Hg as <- <-; repeat split; eauto ].
  all: destruct Hog as [->|[x ->]]; [|failed H].
  all: assert (files (the_scratch wd) = tree) as Hfiles
         by (rewrite Hfd; unfold the_scratch; by rewrite Hsc, Hsb).
  all: clear Hfd Hsd Hg a.
  all: bstep H oi we Hi; apply os_path_exists_inv in Hi as [-> ->].
  all: destruct (classify f) as [p| |] eqn:Hcl; [| |failed H].
  (* the file is created when it is not there *)
  all: bstep H oj wf Hj.
  all: assert (remote wf = remote wd
               ∧ (oj = Normal () ∨ ∃ x, oj = Raised x)
               ∧ (oj = Normal () →
                  match classify f with
                  | InTree p =>
                      (ws_exists (the_scratch wd) p = true ∧ wf = wd)
                      ∨ (ws_exists (the_scratch wd) p = false
                         ∧ files (the_scratch wf) = <[p := file_header t v]> tree)
                  | _ => wf = wd
                  end)) as (Hrf & Hoj & Hcreate).
  1,3,5,7:
    match type of Hj with (if negb ?c then _ else _) _ = _ =>
      destruct c eqn:Hex; cbn [negb] in Hj end;
    [ injection Hj as <- <-; rewrite Hcl; repeat split; eauto
    | apply write_file_inv in Hj as [Hrf Hj]; rewrite Hcl in *;
      destruct oj as [[]| |x]; [|done|subst wf; split; [done|]; split; [eauto|done]];
      split; [done|]; split; [eauto|]; intros _;
      lazymatch type of Hj with
      | _ ∧ _ =>
          destruct Hj as [_ Hj]; right; split; [done|];
          unfold the_scratch at 1; rewrite Hj; cbn; by rewrite Hfiles
      | _ => done
      end ].
  all: destruct Hoj as [->|[x ->]]; [|failed H].
  all: specialize (Hcreate eq_refl); rewrite Hcl in Hcreate.
  all: clear Hj.
  all: bstep H ok wg Hk; apply emit_inv in Hk as [-> [Hrg Hsg]].
  (* the entry is appended *)
  all: bstep H ol wh Hl; apply write_file_inv in Hl as [Hrh Hl];
       rewrite Hcl in Hl.
  all: destruct ol as [[]| |x]; [|done|failed H].
  (* git config, git config, git add *)
  all: bstep H om wi Hm; apply run_inv in Hm as [[Hri Hsi] [->|[x ->]]];
       [|failed H].
  all: bstep H on wj Hn; apply run_inv in Hn as [[Hrj Hsj] [->|[x ->]]];
       [|failed H].
  all: bstep H oo wk Ho; apply run_inv in Ho as [[Hrk Hsk] [->|[x ->]]];
       [|failed H].
  (* git commit *)
  all: bstep H oq wl Hq; apply git_commit_inv in Hq as [[Hrl Hsl] Hq].
  all: destruct oq as [[crc cerr]| |x]; [|done|failed H].
  all: cbn [fst snd] in H, Hq.
  all: destruct (crc =? 0)%Z eqn:Ecrc; cbn [negb] in H;
       [apply Z.eqb_eq in Ecrc; specialize (Hq Ecrc)
       |revert H; run; intros [= <- <-]; left; split; [cbn; congruence | done]].
  (* git push *)
  all: bstep H opu wm Hp; apply git_push_inv in Hp as [Hsm Hp].
  all: destruct opu as [[prc perr]| |x]; [|done|failed H].
  all: cbn [fst snd] in H, Hp.
  all: destruct (prc =? 0)%Z eqn:Eprc; cbn [negb] in H;
       [|revert H; run; intros [= <- <-]; left; split; [cbn; congruence | done]].
  all: revert H; run; intros H; apply pair_equal_spec in H as [<- <-].
  all: assert (remote wl = remote w1) as Hrem by congruence.
  all: assert (the_scratch wl = the_scratch wh) as Hswl
         by (unfold the_scratch; congruence).
  all: assert (the_scratch wk = the_scratch wh) as Hswk
         by (unfold the_scratch; congruence).
  all: assert (the_scratch wg = the_scratch wf) as Hswg
         by (unfold the_scratch; congruence).
  2,4: exfalso; apply Hq; subst wh wf;
       rewrite Hswk, Hswg, Hfiles; congruence.
  all: right; exists tree, p; split; [done|]; split; [done|]; split; [done|].
  all: cbn [remote]; rewrite Hp, Hrem, Hswl; f_equal.
  all: destruct Hl as [Hdir Hl]; unfold the_scratch at 1; rewrite Hl;
       cbn [files from_option]; rewrite Hswg in *.
  all: destruct Hcreate as [[Hex ->]|[Hex Hf]].
  all: unfold ws_exists in Hex; rewrite ?Hfiles in *.
  1,3: rewrite Hdir, orb_false_r in Hex;
       apply bool_decide_eq_true in Hex as [c Hc]; by rewrite Hc.
  all: apply orb_false_iff in Hex as [Hex _];
       apply bool_decide_eq_false in Hex;
       assert (tree !! p = None) as Hnone
         by (destruct (tree !! p); [exfalso; apply Hex; eauto | done]).
  all: rewrite Hf, lookup_insert_eq, insert_insert_eq, Hnone; reflexivity.
Qed.
End StepFacts.
